(** * LayoutAnimationKeyFrameManager: mutation ordering, interpolation and
    the pull-transaction entry point.

    Shallow embedding of
    ReactCommon/react/renderer/animations/LayoutAnimationKeyFrameManager.h.
    Layout values and progress are modelled as exact rationals (Q). *)

From Stdlib Require Import ZArith QArith Lqa List String Bool Sorted Permutation Lia.
Import ListNotations.
Open Scope Z_scope.

(** ** Data model *)

(** [ShadowViewMutation::Type]. *)
Inductive MutationType : Type :=
| Create
| Delete
| Insert
| Remove
| Update.

Definition MutationType_eqb (a b : MutationType) : bool :=
  match a, b with
  | Create, Create | Delete, Delete | Insert, Insert
  | Remove, Remove | Update, Update => true
  | _, _ => false
  end.

(** Animatable part of [Props]: opacity; the rest is opaque key/value data. *)
Record Props : Type := mkProps {
  opacity : Q;
  otherProps : list (string * string)
}.

(** [LayoutMetrics]: the frame of the view. *)
Record LayoutMetrics : Type := mkLayoutMetrics {
  frame_x : Q;
  frame_y : Q;
  frame_width : Q;
  frame_height : Q
}.

(** [ShadowView]. *)
Record ShadowView : Type := mkShadowView {
  componentName : string;
  componentHandle : Z;
  tag : Z;
  props : Props;
  layoutMetrics : LayoutMetrics;
  state : Z
}.

(** [ShadowViewMutation]; [index] is the C++ [int] sibling index. *)
Record ShadowViewMutation : Type := mkMutation {
  type : MutationType;
  parentShadowView : ShadowView;
  oldChildShadowView : ShadowView;
  newChildShadowView : ShadowView;
  index : Z
}.

(** ** The comparators (lines 168-224 of the header) *)

(** [shouldFirstComeBeforeSecondRemovesOnly]. *)
Definition shouldFirstComeBeforeSecondRemovesOnly
    (lhs rhs : ShadowViewMutation) : bool :=
  (MutationType_eqb (type lhs) Remove &&
   MutationType_eqb (type lhs) (type rhs)) &&
  (tag (parentShadowView lhs) =? tag (parentShadowView rhs)) &&
  (index rhs <? index lhs).

(** [shouldFirstComeBeforeSecondMutation]. *)
Definition shouldFirstComeBeforeSecondMutation
    (lhs rhs : ShadowViewMutation) : bool :=
  if negb (MutationType_eqb (type lhs) (type rhs)) then
    (* Deletes always come last *)
    if MutationType_eqb (type lhs) Delete then false
    else if MutationType_eqb (type rhs) Delete then true
    (* Remove comes before insert *)
    else if MutationType_eqb (type lhs) Remove &&
            MutationType_eqb (type rhs) Insert then true
    else if MutationType_eqb (type rhs) Remove &&
            MutationType_eqb (type lhs) Insert then false
    (* Create comes before insert *)
    else if MutationType_eqb (type lhs) Create &&
            MutationType_eqb (type rhs) Insert then true
    else if MutationType_eqb (type rhs) Create &&
            MutationType_eqb (type lhs) Insert then false
    else false
  else
    (* removes on the same level: highest indices first *)
    if MutationType_eqb (type lhs) Remove &&
       (tag (parentShadowView lhs) =? tag (parentShadowView rhs)) then
      if index rhs <? index lhs then true else false
    else false.

(** [std::stable_sort] with a "comes before" comparator, as a stable
    insertion sort: an element is moved past a later one only when the
    later one must come strictly before it. *)
Fixpoint insert_stable (comp : ShadowViewMutation -> ShadowViewMutation -> bool)
    (x : ShadowViewMutation) (l : list ShadowViewMutation)
    : list ShadowViewMutation :=
  match l with
  | [] => [x]
  | y :: l' => if comp y x then y :: insert_stable comp x l' else x :: y :: l'
  end.

Definition stable_sort (comp : ShadowViewMutation -> ShadowViewMutation -> bool)
    (l : list ShadowViewMutation) : list ShadowViewMutation :=
  fold_right (insert_stable comp) [] l.

(** ** Interpolation engine *)

(** [AnimationConfig]: duration and delay in milliseconds. *)
Record AnimationConfig : Type := mkAnimationConfig {
  duration : Q;
  delay : Q
}.

(** Per-node animated transition. *)
Record AnimationKeyFrame : Type := mkAnimationKeyFrame {
  finalMutationForKeyFrame : ShadowViewMutation;
  keyFrameTag : Z;
  viewStart : ShadowView;
  viewEnd : ShadowView
}.

(** [LayoutAnimation]; [startTime] is the [uint64_t] clock value. *)
Record LayoutAnimation : Type := mkLayoutAnimation {
  surfaceId : Z;
  startTime : N;
  layoutAnimationConfig : AnimationConfig;
  keyFrames : list AnimationKeyFrame
}.

Definition clamp01 (q : Q) : Q :=
  if Qle_bool q 0 then 0%Q else if Qle_bool 1 q then 1%Q else q.

(** Modelled from the spec: the body of [calculateAnimationProgress] is not
    part of the header. Section 4.4: rawProgress =
    (now - startTime - delay) / duration, clamped into [0, 1]; if
    now < startTime + delay, progress is 0 (delay phase). Sections 5 and 7:
    a zero or invalid duration makes the animation effectively
    instantaneous, progress evaluating to 1 once the delay has elapsed. *)
Definition calculateAnimationProgress (now : N) (animation : LayoutAnimation)
    (mutationConfig : AnimationConfig) : Q * Q :=
  let elapsed := (inject_Z (Z.of_N now) - inject_Z (Z.of_N (startTime animation))
                  - delay mutationConfig)%Q in
  if Qle_bool (duration mutationConfig) 0 then
    if Qle_bool 0 elapsed then (1%Q, 1%Q) else (0%Q, 0%Q)
  else
    let rawProgress := (elapsed / duration mutationConfig)%Q in
    (rawProgress,
     if negb (Qle_bool 0 elapsed) then 0%Q else clamp01 rawProgress).

(** Linear interpolation of one numeric attribute. *)
Definition interpolateQ (progress start final : Q) : Q :=
  ((1 - progress) * start + progress * final)%Q.

(** Modelled from the spec: the body of [createInterpolatedShadowView] is
    not part of the header. Section 4.4: every numeric visual attribute
    (frame position and size, opacity) is interpolated linearly between the
    start and final snapshots; all non-interpolable attributes are copied
    from the final snapshot. *)
Definition createInterpolatedShadowView (progress : Q)
    (startingView finalView : ShadowView) : ShadowView :=
  let sm := layoutMetrics startingView in
  let fm := layoutMetrics finalView in
  {| componentName := componentName finalView;
     componentHandle := componentHandle finalView;
     tag := tag finalView;
     props := {| opacity := interpolateQ progress (opacity (props startingView))
                                          (opacity (props finalView));
                 otherProps := otherProps (props finalView) |};
     layoutMetrics :=
       {| frame_x := interpolateQ progress (frame_x sm) (frame_x fm);
          frame_y := interpolateQ progress (frame_y sm) (frame_y fm);
          frame_width := interpolateQ progress (frame_width sm) (frame_width fm);
          frame_height := interpolateQ progress (frame_height sm) (frame_height fm) |};
     state := state finalView |}.

(** Equality of snapshots: exact rational equality on numeric attributes,
    syntactic equality on the others. *)
Definition ShadowView_equiv (a b : ShadowView) : Prop :=
  componentName a = componentName b /\
  componentHandle a = componentHandle b /\
  tag a = tag b /\
  (opacity (props a) == opacity (props b))%Q /\
  otherProps (props a) = otherProps (props b) /\
  (frame_x (layoutMetrics a) == frame_x (layoutMetrics b))%Q /\
  (frame_y (layoutMetrics a) == frame_y (layoutMetrics b))%Q /\
  (frame_width (layoutMetrics a) == frame_width (layoutMetrics b))%Q /\
  (frame_height (layoutMetrics a) == frame_height (layoutMetrics b))%Q /\
  state a = state b.

(** ** Transaction interceptor *)

(** [MountingTransaction]. *)
Record MountingTransaction : Type := mkMountingTransaction {
  transactionSurfaceId : Z;
  transactionNumber : Z;
  transactionMutations : list ShadowViewMutation
}.

(** The mutable members of [LayoutAnimationKeyFrameManager] that
    [pullTransaction] reads and writes, and the clock [now_]. *)
Record ManagerState : Type := mkManagerState {
  currentAnimation : option LayoutAnimation;
  inflightAnimations : list LayoutAnimation;
  clockNow : N
}.

Definition onSurface (sid : Z) (la : LayoutAnimation) : bool :=
  surfaceId la =? sid.

Definition hasInflightKeyFrames (sid : Z) (inflight : list LayoutAnimation) : bool :=
  existsb (fun la => onSurface sid la && negb (match keyFrames la with
                                                | [] => true
                                                | _ => false
                                                end)) inflight.

Definition mutationTouchesTag (m : ShadowViewMutation) (t : Z) : bool :=
  (tag (oldChildShadowView m) =? t) || (tag (newChildShadowView m) =? t).

Definition keyFrameConflicts (mutations : list ShadowViewMutation)
    (kf : AnimationKeyFrame) : bool :=
  existsb (fun m => mutationTouchesTag m (keyFrameTag kf)) mutations.

(** Modelled from the spec (section 4.3): [getAndEraseConflictingAnimations],
    split into the extracted keyframes and the in-flight set without them. *)
Definition conflictingKeyFrames (sid : Z) (mutations : list ShadowViewMutation)
    (inflight : list LayoutAnimation) : list AnimationKeyFrame :=
  flat_map (fun la => if onSurface sid la
                      then filter (keyFrameConflicts mutations) (keyFrames la)
                      else []) inflight.

Definition eraseConflictingKeyFrames (sid : Z) (mutations : list ShadowViewMutation)
    (la : LayoutAnimation) : LayoutAnimation :=
  if onSurface sid la then
    {| surfaceId := surfaceId la; startTime := startTime la;
       layoutAnimationConfig := layoutAnimationConfig la;
       keyFrames := filter (fun kf => negb (keyFrameConflicts mutations kf))
                           (keyFrames la) |}
  else la.

(** Mutation types deferred into an animation (section 4.5, step 3). *)
Definition isAnimatedType (t : MutationType) : bool :=
  match t with
  | Insert | Remove | Update => true
  | Create | Delete => false
  end.

Definition keyFrameForMutation (m : ShadowViewMutation) : AnimationKeyFrame :=
  let '(node, s, e) :=
    match type m with
    | Remove => (oldChildShadowView m, oldChildShadowView m, oldChildShadowView m)
    | Insert => (newChildShadowView m, newChildShadowView m, newChildShadowView m)
    | _ => (newChildShadowView m, oldChildShadowView m, newChildShadowView m)
    end in
  {| finalMutationForKeyFrame := m; keyFrameTag := tag node;
     viewStart := s; viewEnd := e |}.

(** Modelled from the spec (section 4.2):
    [adjustImmediateMutationIndicesForDelayedMutations] shifts an immediate
    Insert/Remove by the number of delayed Removes on the same parent whose
    index is at most its own (those nodes are still present). *)
Definition adjustImmediateMutationIndicesForDelayedMutations
    (delayed : list AnimationKeyFrame) (m : ShadowViewMutation) : ShadowViewMutation :=
  match type m with
  | Insert | Remove =>
      let shift := Z.of_nat (List.length (filter (fun kf =>
        let d := finalMutationForKeyFrame kf in
        MutationType_eqb (type d) Remove &&
        (tag (parentShadowView d) =? tag (parentShadowView m)) &&
        (index d <=? index m)) delayed)) in
      {| type := type m; parentShadowView := parentShadowView m;
         oldChildShadowView := oldChildShadowView m;
         newChildShadowView := newChildShadowView m;
         index := index m + shift |}
  | _ => m
  end.

(** One keyframe at time [now]: finished keyframes emit their final
    mutation and leave the set; the others emit an interpolated Update. *)
Definition keyFrameMutationForFrame (now : N) (la : LayoutAnimation)
    (kf : AnimationKeyFrame) : ShadowViewMutation * bool :=
  let progress := snd (calculateAnimationProgress now la (layoutAnimationConfig la)) in
  let final := finalMutationForKeyFrame kf in
  if Qle_bool 1 progress then (final, true)
  else ({| type := Update; parentShadowView := parentShadowView final;
           oldChildShadowView := viewStart kf;
           newChildShadowView :=
             createInterpolatedShadowView progress (viewStart kf) (viewEnd kf);
           index := index final |}, false).

Definition animationForFrame (now : N) (la : LayoutAnimation)
    : list ShadowViewMutation * LayoutAnimation :=
  let steps := map (fun kf => (kf, keyFrameMutationForFrame now la kf)) (keyFrames la) in
  (map (fun p => fst (snd p)) steps,
   {| surfaceId := surfaceId la; startTime := startTime la;
      layoutAnimationConfig := layoutAnimationConfig la;
      keyFrames := map fst (filter (fun p => negb (snd (snd p))) steps) |}).

(** Modelled from the spec (section 4.5, step 4): [animationMutationsForFrame]
    over the in-flight animations of one surface; completed animations
    (no keyframe left) are dropped. *)
Fixpoint animationMutationsForFrame (sid : Z) (now : N) (inflight : list LayoutAnimation)
    : list ShadowViewMutation * list LayoutAnimation :=
  match inflight with
  | [] => ([], [])
  | la :: rest =>
      let '(ms, rest') := animationMutationsForFrame sid now rest in
      if onSurface sid la then
        let '(ms0, la') := animationForFrame now la in
        (ms0 ++ ms, match keyFrames la' with [] => rest' | _ => la' :: rest' end)
      else (ms, la :: rest')
  end.

(** Modelled from the spec: the body of [pullTransaction] is not part of
    the header. Section 6: "no override" ([None]) when no animation is
    configured and no keyframe is in flight on the surface; otherwise the
    per-transaction algorithm of section 4.5. *)
Definition pullTransaction (st : ManagerState) (sid : Z) (number : Z)
    (mutations : list ShadowViewMutation) : ManagerState * option MountingTransaction :=
  match currentAnimation st, hasInflightKeyFrames sid (inflightAnimations st) with
  | None, false => (st, None)
  | cur, _ =>
      let now := clockNow st in
      let conflicting := conflictingKeyFrames sid mutations (inflightAnimations st) in
      let inflight1 := map (eraseConflictingKeyFrames sid mutations) (inflightAnimations st) in
      let '(delayedMutations, immediateMutations) :=
        match cur with
        | Some _ => partition (fun m => isAnimatedType (type m)) mutations
        | None => ([], mutations)
        end in
      let newKeyFrames := map keyFrameForMutation delayedMutations in
      let delayed := flat_map keyFrames (filter (onSurface sid) inflight1) ++ newKeyFrames in
      let adjusted :=
        map (adjustImmediateMutationIndicesForDelayedMutations delayed) immediateMutations in
      let '(cur', inflight2) :=
        match cur, newKeyFrames with
        | Some la, _ :: _ =>
            (None, inflight1 ++ [{| surfaceId := sid; startTime := now;
                                    layoutAnimationConfig := layoutAnimationConfig la;
                                    keyFrames := newKeyFrames |}])
        | _, _ => (cur, inflight1)
        end in
      let '(frameMutations, inflight3) := animationMutationsForFrame sid now inflight2 in
      let immediate :=
        stable_sort shouldFirstComeBeforeSecondMutation
          (map finalMutationForKeyFrame conflicting ++ adjusted) in
      ({| currentAnimation := cur'; inflightAnimations := inflight3; clockNow := now |},
       Some {| transactionSurfaceId := sid; transactionNumber := number;
               transactionMutations := immediate ++ frameMutations |})
  end.

(** ** Concrete inputs *)

Definition viewWithTag (t : Z) : ShadowView :=
  {| componentName := "View"%string; componentHandle := 0; tag := t;
     props := {| opacity := 1%Q; otherProps := [] |};
     layoutMetrics := {| frame_x := 0%Q; frame_y := 0%Q;
                         frame_width := 0%Q; frame_height := 0%Q |};
     state := 0 |}.

Definition mutationOf (ty : MutationType) (parentTag childTag idx : Z)
    : ShadowViewMutation :=
  {| type := ty; parentShadowView := viewWithTag parentTag;
     oldChildShadowView := viewWithTag childTag;
     newChildShadowView := viewWithTag childTag; index := idx |}.

(** A strict weak ordering, stated on a boolean "comes before" relation. *)
Definition incomparable (lt : ShadowViewMutation -> ShadowViewMutation -> bool)
    (a b : ShadowViewMutation) : Prop :=
  lt a b = false /\ lt b a = false.

Definition StrictWeakOrder (lt : ShadowViewMutation -> ShadowViewMutation -> bool) : Prop :=
  (forall a, lt a a = false) /\
  (forall a b, lt a b = true -> lt b a = false) /\
  (forall a b c, lt a b = true -> lt b c = true -> lt a c = true) /\
  (forall a b c, incomparable lt a b -> incomparable lt b c -> incomparable lt a c).

(** A strict weak ordering on the mutations satisfying [P] (a batch of a
    given shape). *)
Definition StrictWeakOrderOn (P : ShadowViewMutation -> Prop)
    (lt : ShadowViewMutation -> ShadowViewMutation -> bool) : Prop :=
  (forall a, P a -> lt a a = false) /\
  (forall a b, P a -> P b -> lt a b = true -> lt b a = false) /\
  (forall a b c, P a -> P b -> P c ->
     lt a b = true -> lt b c = true -> lt a c = true) /\
  (forall a b c, P a -> P b -> P c ->
     incomparable lt a b -> incomparable lt b c -> incomparable lt a c).

(** Lexicographic order on pairs of integers. *)
Definition lexLt (x y : Z * Z) : Prop :=
  fst x < fst y \/ (fst x = fst y /\ snd x < snd y).

(** Sort key reproducing the comparator's rules: Creates and Removes
    (Removes by descending index) before Inserts, Deletes last. Updates are
    not ranked by the comparator; their key is only a placeholder. *)
Definition mutationKey (m : ShadowViewMutation) : Z * Z :=
  match type m with
  | Create => (0, 0)
  | Remove => (0, - index m)
  | Update => (0, 0)
  | Insert => (1, 0)
  | Delete => (2, 0)
  end.

(** Batches of Creates, Inserts and Deletes. *)
Definition CreateInsertDeleteOnly (m : ShadowViewMutation) : Prop :=
  type m = Create \/ type m = Insert \/ type m = Delete.

(** Batches of Inserts, Deletes and Removes under the parent with tag [p]. *)
Definition SameParentRemoveInsertDelete (p : Z) (m : ShadowViewMutation) : Prop :=
  (type m = Remove /\ tag (parentShadowView m) = p) \/
  type m = Insert \/ type m = Delete.

(** Two snapshots of node 5 that differ in a non-interpolable prop. *)
Definition startSnapshot : ShadowView :=
  {| componentName := "View"%string; componentHandle := 0; tag := 5;
     props := {| opacity := 0%Q; otherProps := [("testID"%string, "before"%string)] |};
     layoutMetrics := {| frame_x := 0%Q; frame_y := 0%Q;
                         frame_width := 10%Q; frame_height := 10%Q |};
     state := 0 |}.

Definition finalSnapshot : ShadowView :=
  {| componentName := "View"%string; componentHandle := 0; tag := 5;
     props := {| opacity := 1%Q; otherProps := [("testID"%string, "after"%string)] |};
     layoutMetrics := {| frame_x := 20%Q; frame_y := 0%Q;
                         frame_width := 10%Q; frame_height := 30%Q |};
     state := 0 |}.

Definition animationStartedAt (t : N) (sid : Z) : LayoutAnimation :=
  {| surfaceId := sid; startTime := t;
     layoutAnimationConfig := {| duration := 300%Q; delay := 0%Q |};
     keyFrames := [] |}.

(** ** Basic facts *)

Lemma MutationType_eqb_eq (a b : MutationType) :
  MutationType_eqb a b = true <-> a = b.
Proof. destruct a, b; simpl; split; congruence. Qed.

Example comparator_remove_insert :
  shouldFirstComeBeforeSecondMutation (mutationOf Remove 1 2 0) (mutationOf Insert 1 3 0) = true.
Proof. reflexivity. Qed.

Example comparator_removes_by_index :
  stable_sort shouldFirstComeBeforeSecondMutation
    [mutationOf Remove 1 10 0; mutationOf Remove 1 11 2; mutationOf Remove 1 12 1]
  = [mutationOf Remove 1 11 2; mutationOf Remove 1 12 1; mutationOf Remove 1 10 0].
Proof. reflexivity. Qed.

Ltac destruct_types a b :=
  unfold shouldFirstComeBeforeSecondMutation,
         shouldFirstComeBeforeSecondRemovesOnly;
  destruct (type a), (type b); simpl.

(** Transitivity of the full comparator, shared by the ordering results. *)
Lemma shouldFirstComeBeforeSecondMutation_trans (a b c : ShadowViewMutation) :
  shouldFirstComeBeforeSecondMutation a b = true ->
  shouldFirstComeBeforeSecondMutation b c = true ->
  shouldFirstComeBeforeSecondMutation a c = true.
Proof.
  unfold shouldFirstComeBeforeSecondMutation.
  destruct (type a), (type b), (type c); simpl; try discriminate; auto.
  destruct (tag (parentShadowView a) =? tag (parentShadowView b)) eqn:Hab;
    simpl; try discriminate.
  destruct (tag (parentShadowView b) =? tag (parentShadowView c)) eqn:Hbc;
    simpl; try discriminate.
  apply Z.eqb_eq in Hab; apply Z.eqb_eq in Hbc.
  rewrite Hab, Hbc, Z.eqb_refl; simpl.
  destruct (index b <? index a) eqn:H1; try discriminate.
  destruct (index c <? index b) eqn:H2; try discriminate.
  intros _ _. apply Z.ltb_lt in H1; apply Z.ltb_lt in H2.
  replace (index c <? index a) with true; [reflexivity|].
  symmetry; apply Z.ltb_lt; lia.
Qed.

Lemma shouldFirstComeBeforeSecondMutation_asym (a b : ShadowViewMutation) :
  shouldFirstComeBeforeSecondMutation a b = true ->
  shouldFirstComeBeforeSecondMutation b a = false.
Proof.
  unfold shouldFirstComeBeforeSecondMutation.
  destruct (type a), (type b); simpl; try discriminate; auto.
  rewrite Z.eqb_sym.
  destruct (tag (parentShadowView b) =? tag (parentShadowView a)); simpl;
    try discriminate.
  destruct (index b <? index a) eqn:H1; try discriminate.
  intros _. apply Z.ltb_lt in H1.
  destruct (index a <? index b) eqn:H2; auto.
  apply Z.ltb_lt in H2; lia.
Qed.

(** ** Stable insertion sort *)

Section StableSort.

Variable comp : ShadowViewMutation -> ShadowViewMutation -> bool.
Variable R : ShadowViewMutation -> ShadowViewMutation -> Prop.
Variable P : ShadowViewMutation -> Prop.

(** On the elements considered, [comp] decides [R] in both directions. *)
Hypothesis comp_total : forall x y, P x -> P y ->
  (comp y x = true -> R y x) /\ (comp y x = false -> R x y).

Lemma insert_stable_perm (x : ShadowViewMutation) (l : list ShadowViewMutation) :
  Permutation (x :: l) (insert_stable comp x l).
Proof.
  induction l as [|y l IH]; simpl; [reflexivity|].
  destruct (comp y x).
  - eapply perm_trans; [apply perm_swap|].
    now apply perm_skip.
  - reflexivity.
Qed.

Lemma stable_sort_perm (l : list ShadowViewMutation) :
  Permutation l (stable_sort comp l).
Proof.
  induction l as [|x l IH]; simpl; [reflexivity|].
  eapply perm_trans; [apply perm_skip, IH|].
  apply insert_stable_perm.
Qed.

Lemma insert_stable_sorted (x : ShadowViewMutation) (l : list ShadowViewMutation) :
  P x -> Forall P l -> Sorted R l ->
  Sorted R (insert_stable comp x l) /\
  (forall z, HdRel R z l -> R z x -> HdRel R z (insert_stable comp x l)).
Proof.
  intros Px. induction l as [|y l IH]; simpl; intros Pl Sl.
  - split; [repeat constructor|]. intros z _ Hz. now constructor.
  - inversion Pl as [|? ? Py Pl']; subst.
    inversion Sl as [|? ? Sl' Hy]; subst.
    destruct (comp_total x y Px Py) as [Ht Hf].
    destruct (comp y x) eqn:Hc.
    + destruct (IH Pl' Sl') as [S1 H1].
      split.
      * constructor; [exact S1|]. apply H1; [exact Hy| apply Ht; reflexivity].
      * intros z Hz _. inversion Hz; subst. now constructor.
    + split.
      * constructor; [now constructor|]. constructor. apply Hf; reflexivity.
      * intros z _ Hz. now constructor.
Qed.

Lemma stable_sort_sorted (l : list ShadowViewMutation) :
  Forall P l -> Sorted R (stable_sort comp l).
Proof.
  induction l as [|x l IH]; simpl; intros Pl; [constructor|].
  inversion Pl as [|? ? Px Pl']; subst.
  apply (insert_stable_sorted x (stable_sort comp l) Px).
  - eapply Permutation_Forall; [apply stable_sort_perm|exact Pl'].
  - now apply IH.
Qed.

End StableSort.

(** ** Claims about the comparators *)

(** C1: on mutations of differing types, [shouldFirstComeBeforeSecondMutation]
    puts Delete last (after every other type), Remove before Insert and
    Create before Insert. *)
Theorem comparator_type_priorities (a b : ShadowViewMutation) :
  type a <> type b ->
  (type a = Delete -> shouldFirstComeBeforeSecondMutation a b = false) /\
  (type b = Delete -> shouldFirstComeBeforeSecondMutation a b = true) /\
  (type a = Remove -> type b = Insert ->
     shouldFirstComeBeforeSecondMutation a b = true /\
     shouldFirstComeBeforeSecondMutation b a = false) /\
  (type a = Create -> type b = Insert ->
     shouldFirstComeBeforeSecondMutation a b = true /\
     shouldFirstComeBeforeSecondMutation b a = false).
Proof.
  unfold shouldFirstComeBeforeSecondMutation.
  destruct (type a), (type b); simpl; intros Hne;
    repeat split; intros; try congruence.
Qed.

Lemma comparator_type_priorities_witness :
  Remove <> Insert /\
  shouldFirstComeBeforeSecondMutation (mutationOf Remove 1 2 0) (mutationOf Insert 1 3 0)
  = true.
Proof.
  assert (Hne : Remove <> Insert) by discriminate.
  split; [exact Hne|].
  exact (proj1 (proj1 (proj2 (proj2 (comparator_type_priorities
    (mutationOf Remove 1 2 0) (mutationOf Insert 1 3 0) Hne))) eq_refl eq_refl)).
Defined.

(** C2: on Removes under the same parent both comparators put the higher
    sibling index first, and a stable sort of such Removes (with either
    comparator) is a permutation with non-increasing sibling indices. *)
Theorem removes_same_parent_higher_index_first (p : Z) (l : list ShadowViewMutation) :
  Forall (fun m => type m = Remove /\ tag (parentShadowView m) = p) l ->
  (forall a b, In a l -> In b l ->
     shouldFirstComeBeforeSecondMutation a b = (index b <? index a) /\
     shouldFirstComeBeforeSecondRemovesOnly a b = (index b <? index a)) /\
  Sorted (fun x y => index y <= index x)
    (stable_sort shouldFirstComeBeforeSecondMutation l) /\
  Sorted (fun x y => index y <= index x)
    (stable_sort shouldFirstComeBeforeSecondRemovesOnly l) /\
  Permutation l (stable_sort shouldFirstComeBeforeSecondMutation l) /\
  Permutation l (stable_sort shouldFirstComeBeforeSecondRemovesOnly l).
Proof.
  intros Hl.
  assert (Hpair : forall a b,
    type a = Remove /\ tag (parentShadowView a) = p ->
    type b = Remove /\ tag (parentShadowView b) = p ->
    shouldFirstComeBeforeSecondMutation a b = (index b <? index a) /\
    shouldFirstComeBeforeSecondRemovesOnly a b = (index b <? index a)).
  { intros a b [Ta Pa] [Tb Pb].
    unfold shouldFirstComeBeforeSecondMutation,
           shouldFirstComeBeforeSecondRemovesOnly.
    rewrite Ta, Tb, Pa, Pb, Z.eqb_refl; simpl.
    split; [now destruct (index b <? index a)|reflexivity]. }
  assert (Htot : forall comp,
    (forall a b, type a = Remove /\ tag (parentShadowView a) = p ->
                 type b = Remove /\ tag (parentShadowView b) = p ->
                 comp a b = (index b <? index a)) ->
    forall x y,
      (fun m => type m = Remove /\ tag (parentShadowView m) = p) x ->
      (fun m => type m = Remove /\ tag (parentShadowView m) = p) y ->
      (comp y x = true -> index x <= index y) /\
      (comp y x = false -> index y <= index x)).
  { intros comp Hc x y Px Py. rewrite (Hc y x Py Px).
    split; intros H; [apply Z.ltb_lt in H | apply Z.ltb_ge in H]; lia. }
  rewrite Forall_forall in Hl.
  split; [intros a b Ha Hb; apply Hpair; auto|].
  split; [apply (stable_sort_sorted _ _ _ (Htot _ (fun a b Ha Hb => proj1 (Hpair a b Ha Hb))));
          now apply Forall_forall|].
  split; [apply (stable_sort_sorted _ _ _ (Htot _ (fun a b Ha Hb => proj2 (Hpair a b Ha Hb))));
          now apply Forall_forall|].
  split; apply stable_sort_perm.
Qed.

Lemma removes_same_parent_higher_index_first_witness :
  Forall (fun m => type m = Remove /\ tag (parentShadowView m) = 1)
    [mutationOf Remove 1 10 0; mutationOf Remove 1 11 2; mutationOf Remove 1 12 1] /\
  Sorted (fun x y => index y <= index x)
    (stable_sort shouldFirstComeBeforeSecondMutation
      [mutationOf Remove 1 10 0; mutationOf Remove 1 11 2; mutationOf Remove 1 12 1]).
Proof.
  assert (H : Forall (fun m => type m = Remove /\ tag (parentShadowView m) = 1)
    [mutationOf Remove 1 10 0; mutationOf Remove 1 11 2; mutationOf Remove 1 12 1])
    by (repeat constructor).
  split; [exact H|].
  exact (proj1 (proj2 (removes_same_parent_higher_index_first 1 _ H))).
Defined.

(** C3 (counterexample): [shouldFirstComeBeforeSecondMutation] is not a
    strict weak ordering: "no preference" is not transitive, since a Remove
    and an Update are incomparable, an Update and an Insert are
    incomparable, but the Remove comes before the Insert. *)
Lemma comparator_not_strict_weak_order :
  ~ StrictWeakOrder shouldFirstComeBeforeSecondMutation.
Proof.
  intros [_ [_ [_ Hinc]]].
  destruct (Hinc (mutationOf Remove 1 2 0) (mutationOf Update 1 3 0)
                 (mutationOf Insert 1 4 0)) as [H _];
    [split; reflexivity|split; reflexivity|].
  discriminate H.
Qed.

(** C3 (as amended): neither comparator ever asserts both [a] before [b]
    and [b] before [a] (hence both are irreflexive), and the full comparator
    is transitive: a strict partial order, whose incomparability is not
    transitive. *)
Theorem comparator_asymmetric (a b : ShadowViewMutation) :
  (shouldFirstComeBeforeSecondMutation a b = false \/
   shouldFirstComeBeforeSecondMutation b a = false) /\
  (shouldFirstComeBeforeSecondRemovesOnly a b = false \/
   shouldFirstComeBeforeSecondRemovesOnly b a = false) /\
  shouldFirstComeBeforeSecondMutation a a = false /\
  shouldFirstComeBeforeSecondRemovesOnly a a = false /\
  (forall c, shouldFirstComeBeforeSecondMutation a b = true ->
             shouldFirstComeBeforeSecondMutation b c = true ->
             shouldFirstComeBeforeSecondMutation a c = true) /\
  (exists x y z, incomparable shouldFirstComeBeforeSecondMutation x y /\
                 incomparable shouldFirstComeBeforeSecondMutation y z /\
                 shouldFirstComeBeforeSecondMutation x z = true).
Proof.
  assert (Hasym : forall x y, shouldFirstComeBeforeSecondMutation x y = false \/
                              shouldFirstComeBeforeSecondMutation y x = false).
  { intros x y. destruct (shouldFirstComeBeforeSecondMutation x y) eqn:H; [|now left].
    right. now apply shouldFirstComeBeforeSecondMutation_asym. }
  assert (Hro : forall x y, shouldFirstComeBeforeSecondRemovesOnly x y = false \/
                            shouldFirstComeBeforeSecondRemovesOnly y x = false).
  { intros x y. unfold shouldFirstComeBeforeSecondRemovesOnly.
    destruct (index y <? index x) eqn:H1, (index x <? index y) eqn:H2;
      rewrite ?andb_false_r; auto.
    apply Z.ltb_lt in H1; apply Z.ltb_lt in H2; lia. }
  split; [apply Hasym|].
  split; [apply Hro|].
  split; [destruct (Hasym a a); assumption|].
  split; [destruct (Hro a a); assumption|].
  split; [intros c; apply shouldFirstComeBeforeSecondMutation_trans|].
  exists (mutationOf Remove 1 2 0), (mutationOf Update 1 3 0), (mutationOf Insert 1 4 0).
  repeat split.
Qed.

(** C4: [shouldFirstComeBeforeSecondMutation] is transitive on all
    mutations (so in particular on any batch holding all five types). *)
Theorem comparator_transitive (a b c : ShadowViewMutation) :
  shouldFirstComeBeforeSecondMutation a b = true ->
  shouldFirstComeBeforeSecondMutation b c = true ->
  shouldFirstComeBeforeSecondMutation a c = true.
Proof. apply shouldFirstComeBeforeSecondMutation_trans. Qed.

Lemma comparator_transitive_witness :
  shouldFirstComeBeforeSecondMutation (mutationOf Remove 1 2 5) (mutationOf Remove 1 3 1)
    = true /\
  shouldFirstComeBeforeSecondMutation (mutationOf Remove 1 3 1) (mutationOf Insert 1 4 0)
    = true /\
  shouldFirstComeBeforeSecondMutation (mutationOf Remove 1 2 5) (mutationOf Insert 1 4 0)
    = true.
Proof.
  split; [reflexivity|]. split; [reflexivity|].
  apply (comparator_transitive _ (mutationOf Remove 1 3 1)); reflexivity.
Defined.

(** C9: [shouldFirstComeBeforeSecondRemovesOnly] agrees with
    [shouldFirstComeBeforeSecondMutation] on pairs of Removes, and is false
    whenever one of the two mutations is not a Remove. *)
Theorem removes_only_refines_mutation_comparator (a b : ShadowViewMutation) :
  (type a = Remove -> type b = Remove ->
     shouldFirstComeBeforeSecondRemovesOnly a b =
     shouldFirstComeBeforeSecondMutation a b) /\
  (type a <> Remove \/ type b <> Remove ->
     shouldFirstComeBeforeSecondRemovesOnly a b = false).
Proof.
  destruct_types a b; split; intros H;
    try reflexivity; try discriminate; try (intros; discriminate);
    try (destruct H as [H|H]; congruence).
  intros _.
  destruct (tag (parentShadowView a) =? tag (parentShadowView b)); simpl; [|reflexivity].
  now destruct (index b <? index a).
Qed.

(** C10: [shouldFirstComeBeforeSecondMutation] reads only the types, the
    parents' tags and the sibling indices of its arguments. *)
Theorem comparator_depends_only_on_type_parent_tag_index
    (a b a' b' : ShadowViewMutation) :
  type a = type a' -> type b = type b' ->
  tag (parentShadowView a) = tag (parentShadowView a') ->
  tag (parentShadowView b) = tag (parentShadowView b') ->
  index a = index a' -> index b = index b' ->
  shouldFirstComeBeforeSecondMutation a b = shouldFirstComeBeforeSecondMutation a' b'.
Proof.
  intros Ta Tb Pa Pb Ia Ib.
  unfold shouldFirstComeBeforeSecondMutation.
  rewrite Ta, Tb, Pa, Pb, Ia, Ib. reflexivity.
Qed.

Lemma comparator_depends_only_on_type_parent_tag_index_witness :
  shouldFirstComeBeforeSecondMutation (mutationOf Remove 1 2 3) (mutationOf Remove 1 7 1)
  = shouldFirstComeBeforeSecondMutation
      {| type := Remove; parentShadowView := viewWithTag 1;
         oldChildShadowView := viewWithTag 42; newChildShadowView := viewWithTag 43;
         index := 3 |}
      (mutationOf Remove 1 9 1).
Proof.
  apply comparator_depends_only_on_type_parent_tag_index; reflexivity.
Defined.

(** ** Claims about interpolation and progress *)

Lemma interpolateQ_0 (a b : Q) : (interpolateQ 0 a b == a)%Q.
Proof. unfold interpolateQ. ring. Qed.

Lemma interpolateQ_1 (a b : Q) : (interpolateQ 1 a b == b)%Q.
Proof. unfold interpolateQ. ring. Qed.

(** C5 (counterexample): at progress 0 the interpolated snapshot is not the
    start snapshot when the two snapshots differ in a non-interpolable
    attribute, since those are copied from the final snapshot. *)
Lemma interpolated_view_at_0_not_start :
  ~ ShadowView_equiv (createInterpolatedShadowView 0 startSnapshot finalSnapshot)
                     startSnapshot.
Proof.
  intros (_ & _ & _ & _ & H & _). simpl in H. discriminate H.
Qed.

(** C5 (as amended): at progress 1 the interpolated snapshot is exactly the
    final one; at progress 0 it carries exactly the start snapshot's numeric
    attributes and the final snapshot's non-interpolable ones (component
    name and handle, tag, non-animated props, state), so it is exactly the
    start snapshot if and only if the two agree on those. *)
Theorem interpolated_view_boundaries (startingView finalView : ShadowView) :
  ShadowView_equiv (createInterpolatedShadowView 1 startingView finalView) finalView /\
  (opacity (props (createInterpolatedShadowView 0 startingView finalView))
     == opacity (props startingView))%Q /\
  (frame_x (layoutMetrics (createInterpolatedShadowView 0 startingView finalView))
     == frame_x (layoutMetrics startingView))%Q /\
  (frame_y (layoutMetrics (createInterpolatedShadowView 0 startingView finalView))
     == frame_y (layoutMetrics startingView))%Q /\
  (frame_width (layoutMetrics (createInterpolatedShadowView 0 startingView finalView))
     == frame_width (layoutMetrics startingView))%Q /\
  (frame_height (layoutMetrics (createInterpolatedShadowView 0 startingView finalView))
     == frame_height (layoutMetrics startingView))%Q /\
  componentName (createInterpolatedShadowView 0 startingView finalView)
    = componentName finalView /\
  componentHandle (createInterpolatedShadowView 0 startingView finalView)
    = componentHandle finalView /\
  tag (createInterpolatedShadowView 0 startingView finalView) = tag finalView /\
  otherProps (props (createInterpolatedShadowView 0 startingView finalView))
    = otherProps (props finalView) /\
  state (createInterpolatedShadowView 0 startingView finalView) = state finalView /\
  (ShadowView_equiv (createInterpolatedShadowView 0 startingView finalView) startingView
   <->
   componentName startingView = componentName finalView /\
   componentHandle startingView = componentHandle finalView /\
   tag startingView = tag finalView /\
   otherProps (props startingView) = otherProps (props finalView) /\
   state startingView = state finalView).
Proof.
  simpl.
  split; [repeat split; apply interpolateQ_1|].
  split; [apply interpolateQ_0|]. split; [apply interpolateQ_0|].
  split; [apply interpolateQ_0|]. split; [apply interpolateQ_0|].
  split; [apply interpolateQ_0|].
  do 5 (split; [reflexivity|]).
  split.
  - intros (Hn & Hh & Ht & _ & Ho & _ & _ & _ & _ & Hs); simpl in *.
    repeat split; congruence.
  - intros (Hn & Hh & Ht & Ho & Hs).
    repeat split; simpl; try apply interpolateQ_0; congruence.
Qed.

Lemma clamp01_bounds (q : Q) : (0 <= clamp01 q <= 1)%Q.
Proof.
  unfold clamp01.
  destruct (Qle_bool q 0) eqn:H0; [split; discriminate|].
  destruct (Qle_bool 1 q) eqn:H1; [split; discriminate|].
  apply negb_true_iff in H0; apply negb_true_iff in H1.
  rewrite <- negb_involutive in H0, H1.
  assert (~ (q <= 0)%Q) as N0 by (intros H; apply Qle_bool_iff in H; rewrite H in H0; discriminate).
  assert (~ (1 <= q)%Q) as N1 by (intros H; apply Qle_bool_iff in H; rewrite H in H1; discriminate).
  apply Qnot_le_lt in N0; apply Qnot_le_lt in N1. split; lra.
Qed.

Lemma clamp01_nonpos (q : Q) : (q <= 0)%Q -> clamp01 q = 0%Q.
Proof. intros H. unfold clamp01. apply Qle_bool_iff in H. now rewrite H. Qed.

Lemma div_pos_denominator_nonpos (e d : Q) :
  (e < 0)%Q -> (0 < d)%Q -> (e / d <= 0)%Q.
Proof. intros He Hd. apply Qle_shift_div_r; [exact Hd|]. lra. Qed.

Lemma Qle_bool_false_lt (x y : Q) : Qle_bool x y = false -> (y < x)%Q.
Proof.
  intros H. apply Qnot_le_lt. intros H'. apply Qle_bool_iff in H'. congruence.
Qed.

(** C6 (counterexample): with a zero duration, at now = startTime + delay
    the formula (now - startTime - delay) / duration is 0 / 0 (0 in exact
    arithmetic, NaN in double arithmetic), and clamping it does not give the
    progress 1 that a zero-duration animation reaches there:
    startTime = now = 10, delay = 0, duration = 0. *)
Lemma progress_zero_duration_counterexample :
  snd (calculateAnimationProgress 10 (animationStartedAt 10 1)
                                  {| duration := 0; delay := 0 |}) = 1%Q /\
  ~ ((snd (calculateAnimationProgress 10 (animationStartedAt 10 1)
                                      {| duration := 0; delay := 0 |})
      == clamp01 ((inject_Z 10 - inject_Z 10 - 0) / 0))%Q).
Proof.
  split; [reflexivity|].
  intros H. vm_compute in H. discriminate H.
Qed.

(** C6 (as amended): for a positive duration, rawProgress is
    (now - startTime - delay) / duration and the clamped progress is
    rawProgress clamped into [0, 1]; for a zero or negative duration the
    progress (both components) is 0 before startTime + delay and 1 from then
    on. In every case the clamped progress lies in [0, 1] and is 0 whenever
    now < startTime + delay. *)
Theorem calculateAnimationProgress_values (now : N) (animation : LayoutAnimation)
    (mutationConfig : AnimationConfig) :
  let elapsed := (inject_Z (Z.of_N now) - inject_Z (Z.of_N (startTime animation))
                  - delay mutationConfig)%Q in
  let p := calculateAnimationProgress now animation mutationConfig in
  ((0 < duration mutationConfig)%Q ->
     fst p = (elapsed / duration mutationConfig)%Q /\ snd p = clamp01 (fst p)) /\
  ((duration mutationConfig <= 0)%Q ->
     ((inject_Z (Z.of_N now) < inject_Z (Z.of_N (startTime animation))
                               + delay mutationConfig)%Q -> p = (0%Q, 0%Q)) /\
     ((inject_Z (Z.of_N (startTime animation)) + delay mutationConfig
         <= inject_Z (Z.of_N now))%Q -> p = (1%Q, 1%Q))) /\
  ((inject_Z (Z.of_N now) < inject_Z (Z.of_N (startTime animation))
                            + delay mutationConfig)%Q -> snd p = 0%Q) /\
  (0 <= snd p <= 1)%Q.
Proof.
  intros elapsed p. subst p. unfold calculateAnimationProgress. fold elapsed.
  destruct (Qle_bool (duration mutationConfig) 0) eqn:Hd.
  - apply Qle_bool_iff in Hd.
    destruct (Qle_bool 0 elapsed) eqn:He.
    + apply Qle_bool_iff in He. unfold elapsed in He.
      split; [intros H; lra|].
      split; [intros _; split; [intros H; lra|intros _; reflexivity]|].
      split; [intros H; lra|split; discriminate].
    + apply Qle_bool_false_lt in He. unfold elapsed in He.
      split; [intros H; lra|].
      split; [intros _; split; [intros _; reflexivity|intros H; lra]|].
      split; [intros _; reflexivity|split; discriminate].
  - apply Qle_bool_false_lt in Hd. simpl.
    destruct (Qle_bool 0 elapsed) eqn:He; simpl.
    + apply Qle_bool_iff in He.
      split; [intros _; split; reflexivity|].
      split; [intros H; lra|].
      split; [intros H; unfold elapsed in He; lra|apply clamp01_bounds].
    + apply Qle_bool_false_lt in He.
      split; [intros _; split; [reflexivity|symmetry; apply clamp01_nonpos;
                                now apply div_pos_denominator_nonpos]|].
      split; [intros H; lra|].
      split; [intros _; reflexivity|split; discriminate].
Qed.

(** C7: with a zero duration, from startTime + delay on the progress is 1
    (both components), so a keyframe of such an animation is finalized on
    the next frame. *)
Theorem zero_duration_progress_completes (now : N) (animation : LayoutAnimation)
    (mutationConfig : AnimationConfig) :
  (duration mutationConfig == 0)%Q ->
  (inject_Z (Z.of_N (startTime animation)) + delay mutationConfig
     <= inject_Z (Z.of_N now))%Q ->
  (1 <= fst (calculateAnimationProgress now animation mutationConfig))%Q /\
  (1 <= snd (calculateAnimationProgress now animation mutationConfig))%Q /\
  (layoutAnimationConfig animation = mutationConfig ->
   forall kf, keyFrameMutationForFrame now animation kf = (finalMutationForKeyFrame kf, true)).
Proof.
  intros Hd Hnow.
  assert (Hp : calculateAnimationProgress now animation mutationConfig = (1%Q, 1%Q)).
  { unfold calculateAnimationProgress.
    replace (Qle_bool (duration mutationConfig) 0) with true
      by (symmetry; apply Qle_bool_iff; rewrite Hd; apply Qle_refl).
    replace (Qle_bool 0 _) with true by (symmetry; apply Qle_bool_iff; lra).
    reflexivity. }
  rewrite Hp. split; [apply Qle_refl|]. split; [apply Qle_refl|].
  intros Hc kf. unfold keyFrameMutationForFrame. rewrite Hc, Hp. reflexivity.
Qed.

Lemma zero_duration_progress_completes_witness :
  (duration {| duration := 0; delay := 0 |} == 0)%Q /\
  (inject_Z (Z.of_N (startTime (animationStartedAt 10 1)))
     + delay {| duration := 0; delay := 0 |} <= inject_Z (Z.of_N 10))%Q /\
  (1 <= snd (calculateAnimationProgress 10 (animationStartedAt 10 1)
                                        {| duration := 0; delay := 0 |}))%Q.
Proof.
  assert (H1 : (duration {| duration := 0; delay := 0 |} == 0)%Q) by reflexivity.
  assert (H2 : (inject_Z (Z.of_N (startTime (animationStartedAt 10 1)))
                + delay {| duration := 0; delay := 0 |} <= inject_Z (Z.of_N 10))%Q)
    by (apply Qle_bool_iff; reflexivity).
  split; [exact H1|]. split; [exact H2|].
  exact (proj1 (proj2 (zero_duration_progress_completes 10 _ _ H1 H2))).
Defined.

(** ** Claims about the transaction interceptor *)

Lemma hasInflightKeyFrames_false (sid : Z) (inflight : list LayoutAnimation) :
  (forall la, In la inflight -> surfaceId la = sid -> keyFrames la = []) ->
  hasInflightKeyFrames sid inflight = false.
Proof.
  intros H. unfold hasInflightKeyFrames.
  apply not_true_is_false. intros Hex. apply existsb_exists in Hex as [la [Hin Hla]].
  apply andb_true_iff in Hla as [Hs Hk]. unfold onSurface in Hs.
  apply Z.eqb_eq in Hs. rewrite (H la Hin Hs) in Hk. discriminate Hk.
Qed.

Example pullTransaction_override_when_configured :
  snd (pullTransaction {| currentAnimation := Some (animationStartedAt 0 1);
                          inflightAnimations := []; clockNow := 100 |}
                       1 7 [mutationOf Create 1 2 0; mutationOf Insert 1 2 0])
  <> None.
Proof. vm_compute. discriminate. Qed.

(** C8: with no animation configured and no keyframe in flight on the
    surface, [pullTransaction] on an empty batch returns "no override" and
    leaves the manager state unchanged. *)
Theorem pullTransaction_pass_through (st : ManagerState) (sid number : Z) :
  currentAnimation st = None ->
  (forall la, In la (inflightAnimations st) -> surfaceId la = sid -> keyFrames la = []) ->
  pullTransaction st sid number [] = (st, None).
Proof.
  intros Hcur Hinf. unfold pullTransaction.
  rewrite Hcur, (hasInflightKeyFrames_false sid _ Hinf). reflexivity.
Qed.

Lemma pullTransaction_pass_through_witness :
  pullTransaction {| currentAnimation := None;
                     inflightAnimations :=
                       [{| surfaceId := 2; startTime := 0;
                           layoutAnimationConfig := {| duration := 300; delay := 0 |};
                           keyFrames := [keyFrameForMutation (mutationOf Update 1 2 0)] |}];
                     clockNow := 50 |}
                  1 3 []
  = ({| currentAnimation := None;
        inflightAnimations :=
          [{| surfaceId := 2; startTime := 0;
              layoutAnimationConfig := {| duration := 300; delay := 0 |};
              keyFrames := [keyFrameForMutation (mutationOf Update 1 2 0)] |}];
        clockNow := 50 |}, None).
Proof.
  apply pullTransaction_pass_through; [reflexivity|].
  intros la [<-|[]] Hs. discriminate Hs.
Defined.

(** ** Further properties of the comparators *)

(** [shouldFirstComeBeforeSecondRemovesOnly] is transitive. *)
Theorem removes_only_transitive (a b c : ShadowViewMutation) :
  shouldFirstComeBeforeSecondRemovesOnly a b = true ->
  shouldFirstComeBeforeSecondRemovesOnly b c = true ->
  shouldFirstComeBeforeSecondRemovesOnly a c = true.
Proof.
  unfold shouldFirstComeBeforeSecondRemovesOnly.
  intros Hab Hbc.
  apply andb_true_iff in Hab as [Hab Iab]; apply andb_true_iff in Hab as [Tab Pab].
  apply andb_true_iff in Hbc as [Hbc Ibc]; apply andb_true_iff in Hbc as [Tbc Pbc].
  apply andb_true_iff in Tab as [Ra Eab]; apply andb_true_iff in Tbc as [_ Ebc].
  apply MutationType_eqb_eq in Ra, Eab, Ebc.
  apply Z.eqb_eq in Pab, Pbc. apply Z.ltb_lt in Iab, Ibc.
  rewrite Ra, <- Ebc, <- Eab, Ra; simpl.
  rewrite Pab, Pbc, Z.eqb_refl; simpl. apply Z.ltb_lt; lia.
Qed.

Lemma removes_only_transitive_witness :
  shouldFirstComeBeforeSecondRemovesOnly (mutationOf Remove 1 2 5) (mutationOf Remove 1 3 2)
    = true /\
  shouldFirstComeBeforeSecondRemovesOnly (mutationOf Remove 1 3 2) (mutationOf Remove 1 4 0)
    = true /\
  shouldFirstComeBeforeSecondRemovesOnly (mutationOf Remove 1 2 5) (mutationOf Remove 1 4 0)
    = true.
Proof.
  split; [reflexivity|]. split; [reflexivity|].
  apply (removes_only_transitive _ (mutationOf Remove 1 3 2)); reflexivity.
Defined.

(** Nothing is ever ordered before a Create or an Update, and an Update is
    ordered before a mutation exactly when that mutation is a Delete. *)
Theorem comparator_create_update_unconstrained (a b : ShadowViewMutation) :
  (type b = Create -> shouldFirstComeBeforeSecondMutation a b = false) /\
  (type b = Update -> shouldFirstComeBeforeSecondMutation a b = false) /\
  (type a = Update ->
     shouldFirstComeBeforeSecondMutation a b = MutationType_eqb (type b) Delete).
Proof.
  unfold shouldFirstComeBeforeSecondMutation.
  destruct (type a), (type b); simpl; repeat split; intros; try discriminate;
    try reflexivity.
  all: destruct (tag (parentShadowView a) =? tag (parentShadowView b)); simpl;
    try reflexivity; discriminate.
Qed.

(** A comparator that agrees with the lexicographic order of a key on the
    mutations satisfying [P] is a strict weak ordering on them. *)
Lemma strict_weak_order_from_key (P : ShadowViewMutation -> Prop)
    (lt : ShadowViewMutation -> ShadowViewMutation -> bool)
    (key : ShadowViewMutation -> Z * Z) :
  (forall a b, P a -> P b -> (lt a b = true <-> lexLt (key a) (key b))) ->
  StrictWeakOrderOn P lt.
Proof.
  intros Hk.
  assert (Hf : forall a b, P a -> P b -> lt a b = false <-> ~ lexLt (key a) (key b)).
  { intros a b Pa Pb. rewrite <- (Hk a b Pa Pb).
    destruct (lt a b); split; congruence. }
  unfold StrictWeakOrderOn, incomparable, lexLt in *.
  split; [intros a Pa; apply Hf; [exact Pa|exact Pa|lia]|].
  split; [intros a b Pa Pb H; apply Hk in H; [|exact Pa|exact Pb];
          apply Hf; [exact Pb|exact Pa|lia]|].
  split; [intros a b c Pa Pb Pc H1 H2;
          apply Hk in H1; [|exact Pa|exact Pb]; apply Hk in H2; [|exact Pb|exact Pc];
          apply Hk; [exact Pa|exact Pc|lia]|].
  intros a b c Pa Pb Pc [H1 H2] [H3 H4].
  apply Hf in H1; [|exact Pa|exact Pb]. apply Hf in H2; [|exact Pb|exact Pa].
  apply Hf in H3; [|exact Pb|exact Pc]. apply Hf in H4; [|exact Pc|exact Pb].
  split; apply Hf; auto; lia.
Qed.

Ltac solve_key_case :=
  split; [intros H; first [exfalso; discriminate H | lia]
         |intros H; first [reflexivity | exfalso; lia]].

(** On a batch made only of Creates, Inserts and Deletes,
    [shouldFirstComeBeforeSecondMutation] is a strict weak ordering: the
    ranks Create < Insert < Delete. *)
Theorem comparator_strict_weak_order_create_insert_delete :
  StrictWeakOrderOn CreateInsertDeleteOnly shouldFirstComeBeforeSecondMutation.
Proof.
  apply (strict_weak_order_from_key _ _ mutationKey).
  intros a b Pa Pb. unfold shouldFirstComeBeforeSecondMutation, mutationKey, lexLt.
  destruct Pa as [Ha|[Ha|Ha]], Pb as [Hb|[Hb|Hb]]; rewrite Ha, Hb; simpl;
    solve_key_case.
Qed.

(** On a batch made of Inserts, Deletes and Removes that all share one
    parent, [shouldFirstComeBeforeSecondMutation] is a strict weak ordering:
    Removes by descending index, then Inserts, then Deletes. *)
Theorem comparator_strict_weak_order_same_parent_removes (p : Z) :
  StrictWeakOrderOn (SameParentRemoveInsertDelete p) shouldFirstComeBeforeSecondMutation.
Proof.
  apply (strict_weak_order_from_key _ _ mutationKey).
  intros a b Pa Pb. unfold shouldFirstComeBeforeSecondMutation, mutationKey, lexLt.
  destruct Pa as [[Ha Qa]|[Ha|Ha]], Pb as [[Hb Qb]|[Hb|Hb]]; rewrite Ha, Hb; simpl;
    try solve_key_case.
  rewrite Qa, Qb, Z.eqb_refl; simpl.
  destruct (index b <? index a) eqn:Hi;
    [apply Z.ltb_lt in Hi | apply Z.ltb_ge in Hi]; solve_key_case.
Qed.
